(** * sarpy metadata utilities: range normalisation, time deltas, XML
      namespaces and ICEYE commercial ids

    Shallow embedding of [sarpy/io/general/utils.py] and
    [sarpy/io/complex/naming/iceye.py].

    Conventions of the embedding:
    - a Python [int] is a [Z] (unbounded); a numpy [int64] is a [Z] kept in
      range by [wrap64];
    - a Python [float] / numpy [float64] is a [spec_float] of binary64
      ([prec = 53], [emax = 1024]), operations are the IEEE ones of
      [SpecFloat];
    - a Python [str] is a [string]; the case and whitespace functions are
      the ASCII ones;
    - a Python [dict] with string keys is a [gmap string _];
    - a raised exception is the [Raise] branch of [result]. *)

From Stdlib Require Import ZArith Lia Bool List String Ascii SpecFloat DecimalString.
From stdpp Require Import gmap strings.
Import ListNotations.

Local Open Scope Z_scope.

(** ** Exceptions and results *)

Module Py.

(** What a [ValueError] is raised for; it stands for the text of the
    message.  The first four are the checks of [validate_range]. *)
Inductive value_error :=
| BadStart
| BadStop
| BadStep
| BadDirection
| UnrecognizedPrecision (* get_seconds *)
| InvalidTimestring     (* numpy.datetime64 on a text it cannot read *)
| NanToInteger.         (* round(nan) *)

Inductive exn :=
| ValueError (why : value_error)
| IndexError
| ParseError
| OverflowError.

Inductive result (A : Type) :=
| Ok (a : A)
| Raise (e : exn).

Arguments Ok {A} a.
Arguments Raise {A} e.

Definition bind {A B} (r : result A) (k : A -> result B) : result B :=
  match r with
  | Ok a => k a
  | Raise e => Raise e
  end.

Definition is_value_error {A} (r : result A) : bool :=
  match r with
  | Raise (ValueError _) => true
  | _ => false
  end.

End Py.

Import Py.

Notation "'let*' p ':=' c 'in' k" := (bind c (fun p => k))
  (at level 10, p pattern, c at level 100, k at level 200).

(** ** Range arguments *)

Module Range.

(** [None | int | tuple]; the entries of a tuple may themselves be [None],
    which the code replaces by the default of the position. *)
Inductive range_arg :=
| ArgNone
| ArgInt (k : Z)
| ArgTuple (l : list (option Z)).

Definition triple : Type := Z * Z * Z.

(** A [(start, stop, step)] triple passed back as an argument. *)
Definition of_triple (t : triple) : range_arg :=
  let '(start, stop, step) := t in ArgTuple [Some start; Some stop; Some step].

(** Lines 48-60: the [start, stop, step] extracted from the argument,
    [None] where the argument leaves the position open.  A tuple of any
    other length assigns nothing. *)
Definition extract (arg : range_arg) : option Z * option Z * option Z :=
  match arg with
  | ArgNone => (None, None, None)
  | ArgInt k => (None, None, Some k)
  | ArgTuple [step] => (None, None, step)
  | ArgTuple [stop; step] => (None, stop, step)
  | ArgTuple [start; stop; step] => (start, stop, step)
  | ArgTuple _ => (None, None, None)
  end.

(** Lines 61-63: the extracted values after the defaults. *)
Definition extracted (arg : range_arg) (siz : Z) : triple :=
  let '(start, stop, step) := extract arg in
  (match start with None => 0 | Some v => v end,
   match stop with None => siz | Some v => v end,
   match step with None => 1 | Some v => v end).

Definition validate_range (arg : range_arg) (siz : Z) : result triple :=
  let '(start, stop, step) := extracted arg siz in
  if negb ((- siz <? start) && (start <? siz)) then
    Raise (ValueError BadStart)
  else if negb ((- siz <? stop) && (stop <=? siz)) then
    Raise (ValueError BadStop)
  else if negb (((0 <? step) && (step <? siz)) || ((- siz <? step) && (step <? 0))) then
    Raise (ValueError BadStep)
  else if ((step <? 0) && (stop >? start)) || ((step >? 0) && (start >? stop)) then
    Raise (ValueError BadDirection)
  else
    let start := if start <? 0 then start + siz else start in
    let stop := if stop <? 0 then stop + siz else stop in
    Ok (start, stop, step).

Definition reverse_range (arg : range_arg) (siz : Z) : result triple :=
  let* (start, stop, step) := validate_range arg siz in
  Ok ((siz - 1) - start, (siz - 1) - stop, - step).

End Range.

(** ** Traversal of a range

    The indices a [(start, stop, step)] triple visits, in order, are those
    of Python's built-in [range(start, stop, step)]: [start],
    [start + step], ... strictly before [stop] in the direction of [step].
    (The built-in rejects [step = 0]; no triple returned by
    [validate_range] has it, and the list is empty there.) *)

Module Traversal.
Import Range.

Definition range_len (t : triple) : Z :=
  let '(start, stop, step) := t in
  if 0 <? step then
    if start <? stop then (stop - start - 1) / step + 1 else 0
  else if step <? 0 then
    if stop <? start then (start - stop - 1) / (- step) + 1 else 0
  else 0.

Definition py_range (t : triple) : list Z :=
  let '(start, stop, step) := t in
  map (fun i => start + Z.of_nat i * step) (seq 0 (Z.to_nat (range_len t))).

(** Reflection of an index about [siz - 1]. *)
Definition mirror (siz i : Z) : Z := (siz - 1) - i.

(** A normalized range: both indices within [[0, siz]]. *)
Definition normalized (siz : Z) (t : triple) : Prop :=
  let '(start, stop, _) := t in 0 <= start <= siz /\ 0 <= stop <= siz.

(** The step agrees with the order of the normalized indices. *)
Definition direction_ok (t : triple) : Prop :=
  let '(start, stop, step) := t in
  ~ (step < 0 /\ stop > start) /\ ~ (step > 0 /\ start > stop).

(** Lines 83-86: a negative index counts from the end of the axis. *)
Definition wrap_index (siz i : Z) : Z := if i <? 0 then i + siz else i.

(** The direction test of [validate_range], line 77. *)
Definition wrong_direction (start stop step : Z) : Prop :=
  (step < 0 /\ stop > start) \/ (step > 0 /\ start > stop).

(** Reverse, normalize the result again, reverse again. *)
Definition double_reverse (arg : range_arg) (siz : Z) : result triple :=
  let* r1 := reverse_range arg siz in
  let* n1 := validate_range (of_triple r1) siz in
  reverse_range (of_triple n1) siz.

(** The double reversal as the specification words it, in its two parts:
    the same index set as the original normalized range, and the indices
    in the reverse of the original order. *)
Definition double_reverse_same_set : Prop :=
  forall arg siz t, validate_range arg siz = Ok t ->
    exists t2, double_reverse arg siz = Ok t2 /\
               forall i, In i (py_range t2) <-> In i (py_range t).

Definition double_reverse_reversed : Prop :=
  forall arg siz t, validate_range arg siz = Ok t ->
    exists t2, double_reverse arg siz = Ok t2 /\ py_range t2 = rev (py_range t).

End Traversal.

(** ** Instants and time deltas *)

Module Time.

Definition int64_min : Z := - 2 ^ 63.
Definition int64_max : Z := 2 ^ 63 - 1.

(** Two's complement wrap-around of numpy's [int64] arithmetic. *)
Definition wrap64 (z : Z) : Z := (z + 2 ^ 63) mod 2 ^ 64 - 2 ^ 63.

Definition in_int64 (z : Z) : Prop := int64_min <= z <= int64_max.

Definition int64_sub (a b : Z) : Z := wrap64 (a - b).
Definition int64_mul (a b : Z) : Z := wrap64 (a * b).

(** binary64 *)
Definition float : Type := spec_float.
Definition float_of_Z (z : Z) : float := binary_normalize 53 1024 z 0 false.
Definition fmul : float -> float -> float := SFmul 53 1024.
Definition fdiv : float -> float -> float := SFdiv 53 1024.
Definition fneg : float -> float := SFopp.
(** Python's [==] on floats. *)
Definition feq : float -> float -> bool := SFeqb.

Definition is_nan (x : float) : bool :=
  match x with S754_nan => true | _ => false end.

Definition is_finite (x : float) : bool :=
  match x with S754_finite _ _ _ => true | _ => false end.

(** The literals [1e-3], [1e-6], [1e-9]: the doubles nearest to the
    decimal fractions. *)
Definition lit_1e_3 : float := Eval vm_compute in fdiv (float_of_Z 1) (float_of_Z (10 ^ 3)).
Definition lit_1e_6 : float := Eval vm_compute in fdiv (float_of_Z 1) (float_of_Z (10 ^ 6)).
Definition lit_1e_9 : float := Eval vm_compute in fdiv (float_of_Z 1) (float_of_Z (10 ^ 9)).

Inductive time_unit := U_s | U_ms | U_us | U_ns.

(** [numpy.datetime64]: a count of ticks of its unit since the epoch, held
    in an [int64]; the least [int64] is [NaT]. *)
Record datetime64 := { dt_unit : time_unit; dt_ticks : Z }.

Definition NaT : Z := int64_min.

(** Decimal exponent of the ticks per second. *)
Definition unit_exp (u : time_unit) : Z :=
  match u with U_s => 0 | U_ms => 3 | U_us => 6 | U_ns => 9 end.

(** ['datetime64[{}]'.format(precision)] for the precisions the function
    lets through. *)
Definition unit_of_precision (precision : string) : option time_unit :=
  if String.eqb precision "s" then Some U_s
  else if String.eqb precision "ms" then Some U_ms
  else if String.eqb precision "us" then Some U_us
  else if String.eqb precision "ns" then Some U_ns
  else None.

(** numpy's cast between datetime units: [NaT] stays [NaT]; otherwise the
    ticks are multiplied by [num] and divided by [denom] in [int64],
    rounding towards minus infinity. *)
Definition astype (d : datetime64) (u : time_unit) : datetime64 :=
  let k := unit_exp u - unit_exp (dt_unit d) in
  let num := if 0 <=? k then 10 ^ k else 1 in
  let denom := if 0 <=? k then 1 else 10 ^ (- k) in
  let dt := dt_ticks d in
  let dt' :=
    if dt =? NaT then NaT
    else if dt <? 0 then Z.quot (wrap64 (int64_mul dt num - (denom - 1))) denom
    else Z.quot (int64_mul dt num) denom in
  {| dt_unit := u; dt_ticks := dt' |}.

(** The ticks of an instant at a unit, and the [int64] difference the
    function scales. *)
Definition ticks_at (d : datetime64) (u : time_unit) : Z := dt_ticks (astype d u).

Definition tick_delta (dt1 dt2 : datetime64) (u : time_unit) : Z :=
  int64_sub (ticks_at dt1 u) (ticks_at dt2 u).

Definition precisions : list string := ["s"; "ms"; "us"; "ns"]%string.

(** [scale]: the integer [1] for seconds, a float otherwise. *)
Inductive scale_t := ScaleInt (n : Z) | ScaleFloat (x : float).

Definition scale_of (precision : string) : result scale_t :=
  if String.eqb precision "s" then Ok (ScaleInt 1)
  else if String.eqb precision "ms" then Ok (ScaleFloat lit_1e_3)
  else if String.eqb precision "us" then Ok (ScaleFloat lit_1e_6)
  else if String.eqb precision "ns" then Ok (ScaleFloat lit_1e_9)
  else Raise (ValueError UnrecognizedPrecision).

(** [float(delta * scale)]: an [int64] times a Python [int] stays an
    [int64]; times a Python [float] it is converted to [float64] first. *)
Definition scaled (delta : Z) (scale : scale_t) : float :=
  match scale with
  | ScaleInt n => float_of_Z (int64_mul delta n)
  | ScaleFloat x => fmul (float_of_Z delta) x
  end.

(** The scales the function uses: the integer 1 or a finite float. *)
Definition scale_ok (scale : scale_t) : Prop :=
  match scale with
  | ScaleInt n => n = 1
  | ScaleFloat x => is_finite x = true
  end.

Definition get_seconds (dt1 dt2 : datetime64) (precision : string) : result float :=
  let* scale := scale_of precision in
  match unit_of_precision precision with
  | None => Raise (ValueError UnrecognizedPrecision)
  | Some dtype =>
    let tdt1 := astype dt1 dtype in
    let tdt2 := astype dt2 dtype in
    Ok (scaled (int64_sub (dt_ticks tdt1) (dt_ticks tdt2)) scale)
  end.

End Time.

(** ** Python string operations (ASCII) *)

Module PyStr.

Local Open Scope string_scope.

Definition is_space (a : ascii) : bool :=
  let n := nat_of_ascii a in
  ((9 <=? n) && (n <=? 13) || (28 <=? n) && (n <=? 32))%nat.

Definition is_upper (a : ascii) : bool :=
  let n := nat_of_ascii a in ((65 <=? n) && (n <=? 90))%nat.

Definition is_lower (a : ascii) : bool :=
  let n := nat_of_ascii a in ((97 <=? n) && (n <=? 122))%nat.

Definition lower_char (a : ascii) : ascii :=
  if is_upper a then ascii_of_nat (nat_of_ascii a + 32) else a.

Definition upper_char (a : ascii) : ascii :=
  if is_lower a then ascii_of_nat (nat_of_ascii a - 32) else a.

Fixpoint smap (f : ascii -> ascii) (s : string) : string :=
  match s with
  | EmptyString => EmptyString
  | String a s' => String (f a) (smap f s')
  end.

Definition lower : string -> string := smap lower_char.
Definition upper : string -> string := smap upper_char.

(** [s.startswith(p)] *)
Definition startswith (p s : string) : bool := String.prefix p s.

(** [s] begins with [p] up to the case of the letters. *)
Definition starts_with_ignoring_case (p s : string) : Prop :=
  exists h t, s = h ++ t /\ lower h = lower p.

Fixpoint lstrip (s : string) : string :=
  match s with
  | EmptyString => EmptyString
  | String a s' => if is_space a then lstrip s' else s
  end.

Fixpoint rstrip (s : string) : string :=
  match s with
  | EmptyString => EmptyString
  | String a s' =>
    match rstrip s' with
    | EmptyString => if is_space a then EmptyString else String a EmptyString
    | r => String a r
    end
  end.

Definition strip (s : string) : string := lstrip (rstrip s).

(** Every character is whitespace (so also the empty string). *)
Fixpoint all_space (s : string) : bool :=
  match s with
  | EmptyString => true
  | String a s' => is_space a && all_space s'
  end.

(** [s[-1]]; [IndexError] on the empty string. *)
Fixpoint last_char (s : string) : result ascii :=
  match s with
  | EmptyString => Raise IndexError
  | String a EmptyString => Ok a
  | String _ s' => last_char s'
  end.

(** [s[:-1]] *)
Fixpoint but_last (s : string) : string :=
  match s with
  | EmptyString => EmptyString
  | String _ EmptyString => EmptyString
  | String a s' => String a (but_last s')
  end.

(** [s[-2:]] *)
Definition last_two (s : string) : string :=
  let n := String.length s in String.substring (n - 2) 2 s.

Fixpoint zeros (n : nat) : string :=
  match n with
  | O => EmptyString
  | S n' => String "0" (zeros n')
  end.

(** ['{:0Wd}'.format(n)]: sign, then zeros up to the width, then the
    decimal digits. *)
Definition format_0d (width : nat) (n : Z) : string :=
  let sign := if (n <? 0)%Z then "-" else "" in
  let digits := DecimalString.NilZero.string_of_uint (N.to_uint (Z.abs_N n)) in
  sign ++ zeros (width - String.length sign - String.length digits) ++ digits.

End PyStr.

(** ** Timestamps *)

Module TimeString.
Import Time PyStr.

Section Parse.

(** [numpy.datetime64(text, precision)], the parser of the numpy library. *)
Variable datetime64_of_string : string -> string -> result datetime64.

Definition parse_timestring (str_in precision : string) : result datetime64 :=
  let* c := last_char (strip str_in) in
  if Ascii.eqb c "Z" then datetime64_of_string (but_last str_in) precision
  else datetime64_of_string str_in precision.

End Parse.

(** A parser in the manner of [numpy.datetime64] that knows one
    timestamp, the epoch, with or without the UTC designator. *)
Definition epoch_of_string (text precision : string) : result datetime64 :=
  if String.eqb text "1970-01-01T00:00:00" || String.eqb text "1970-01-01T00:00:00Z" then
    match unit_of_precision precision with
    | Some u => Ok {| dt_unit := u; dt_ticks := 0 |}
    | None => Raise (ValueError InvalidTimestring)
    end
  else Raise (ValueError InvalidTimestring).

End TimeString.

(** ** XML namespaces *)

Module Xml.

Inductive xml_input :=
| XStr (s : string)
| XBytes (b : string).

(** [bytes.decode('utf-8')], on ASCII text. *)
Definition decode_utf8 (b : string) : string := b.

(** [dict(pairs)]: later pairs overwrite earlier ones. *)
Definition py_dict (pairs : list (string * string)) : gmap string string :=
  fold_left (fun m kv => <[kv.1 := kv.2]> m) pairs ∅.

(** Lines 170-173, on the dictionary of the [start-ns] events. *)
Definition namespace_dict (events : list (string * string)) : option (gmap string string) :=
  let xml_ns := py_dict events in
  if (size xml_ns =? 0)%nat then None
  else match xml_ns !! ""%string with
       | Some uri => Some (<["default"%string := uri]> xml_ns)
       | None => Some xml_ns
       end.

(** Lines 164-165: a byte string is decoded, a string is taken as it is. *)
Definition as_text (xml_string : xml_input) : string :=
  match xml_string with
  | XStr s => s
  | XBytes b => decode_utf8 b
  end.

(** The last declaration of a prefix in document order is [uri]. *)
Definition last_declared (events : list (string * string)) (prefix uri : string) : Prop :=
  exists pre post, events = pre ++ (prefix, uri) :: post /\
                   forall kv, In kv post -> kv.1 <> prefix.

Section Parser.

(** The ElementTree library: [fromstring] gives the root element or raises
    [ParseError]; [iterparse(..., events=('start-ns',))] gives the
    [(prefix, uri)] pairs of the namespace declarations in document
    order. *)
Variable Element : Type.
Variable fromstring : string -> result Element.
Variable start_ns : string -> list (string * string).

Definition parse_xml_from_string (xml_string : xml_input)
  : result (Element * option (gmap string string)) :=
  let xml_string := as_text xml_string in
  let* root_node := fromstring xml_string in
  Ok (root_node, namespace_dict (start_ns xml_string)).

End Parser.

End Xml.

(** ** ICEYE commercial id *)

Module Iceye.
Import Time PyStr.

Definition _orbits_per_day : Z := 15.

Definition round_half_even (m d : Z) : Z :=
  let q := m / d in
  match (2 * (m mod d) ?= d) with
  | Lt => q
  | Gt => q + 1
  | Eq => if Z.even q then q else q + 1
  end.

(** Python 3 [round(x)] of a float: the nearest integer, ties to even. *)
Definition py_round (x : float) : result Z :=
  match x with
  | S754_zero _ => Ok 0
  | S754_infinity _ => Raise OverflowError
  | S754_nan => Raise (ValueError NanToInteger)
  | S754_finite s m e =>
    let n := if 0 <=? e then Zpos m * 2 ^ e else round_half_even (Zpos m) (2 ^ (- e)) in
    Ok (if s then - n else n)
  end.

Local Open Scope string_scope.

Definition get_commercial_id (collector cdate_str : string) (cdate_mins : float)
    (product_number : Z) : result (option string) :=
  if negb (startswith "iceye" (lower collector)) then Ok None
  else
    let crad := "NI" in
    let cvehicle :=
      if startswith "iceye-" (lower collector) then upper (last_two collector) else "UN" in
    let* n := py_round (fdiv (fmul cdate_mins (float_of_Z _orbits_per_day)) (float_of_Z 1440)) in
    let pass_number := format_0d 2 n in
    Ok (Some (cdate_str ++ crad ++ cvehicle ++ pass_number ++ format_0d 3 product_number)).

End Iceye.

(** * Properties *)

Import Range Traversal.

(** ** validate_range *)

Ltac cases_Z :=
  repeat match goal with
  | H : context [Z.gtb ?a ?b] |- _ => rewrite (Z.gtb_ltb a b) in H
  | |- context [Z.gtb ?a ?b] => rewrite (Z.gtb_ltb a b)
  | H : context [Z.ltb ?a ?b] |- _ => destruct (Z.ltb_spec a b); simpl in H
  | H : context [Z.leb ?a ?b] |- _ => destruct (Z.leb_spec a b); simpl in H
  | |- context [Z.ltb ?a ?b] => destruct (Z.ltb_spec a b); simpl
  | |- context [Z.leb ?a ?b] => destruct (Z.leb_spec a b); simpl
  end.

(** What the four checks and the wrap-around amount to. *)
Lemma validate_range_ok (arg : range_arg) (siz : Z) (t : triple) :
  validate_range arg siz = Ok t <->
  let '(start, stop, step) := extracted arg siz in
  - siz < start < siz /\ - siz < stop <= siz /\
  (0 < step < siz \/ - siz < step < 0) /\
  ~ wrong_direction start stop step /\
  t = (wrap_index siz start, wrap_index siz stop, step).
Proof.
  unfold validate_range, wrong_direction, wrap_index.
  destruct (extracted arg siz) as [[start stop] step].
  split.
  - intros H. cases_Z; try discriminate; inversion H; subst;
      repeat split; try lia.
  - intros (Hs & He & Hst & Hd & ->).
    cases_Z; try reflexivity; exfalso; lia.
Qed.

Lemma validate_range_raises (arg : range_arg) (siz : Z) (e : exn) :
  validate_range arg siz = Raise e -> is_value_error (validate_range arg siz) = true.
Proof.
  intros H. rewrite H. revert H. unfold validate_range.
  destruct (extracted arg siz) as [[start stop] step].
  repeat match goal with |- context [if ?b then _ else _] => destruct b end;
    intros H; inversion H; reflexivity.
Qed.

(** The indices of a returned triple lie on the axis, and its step is
    shorter than the axis. *)
Lemma validate_range_bounds (arg : range_arg) (siz start stop step : Z) :
  validate_range arg siz = Ok (start, stop, step) ->
  0 <= start < siz /\ 0 <= stop <= siz /\ (0 < step < siz \/ - siz < step < 0).
Proof.
  intros V. apply validate_range_ok in V.
  destruct (extracted arg siz) as [[start0 stop0] step0].
  destruct V as (Hs & He & Hst & _ & Ht). inversion Ht; subst.
  unfold wrap_index. cases_Z; lia.
Qed.

Lemma validate_range_none (siz : Z) :
  2 <= siz -> validate_range ArgNone siz = Ok (0, siz, 1).
Proof.
  intros H. apply validate_range_ok. simpl. unfold wrong_direction, wrap_index.
  cases_Z; repeat split; lia.
Qed.

(** C1, counterexample: a negative integer argument is rejected.  With
    [k = -1] on an axis of length 5 the defaults give start 0 and stop 5,
    and the direction test (step < 0 and stop > start) raises. *)
Lemma validate_range_negative_int_rejected :
  ~ (forall k N : Z, 0 < k < N \/ - N < k < 0 ->
       validate_range (ArgInt k) N = Ok (0, N, k)).
Proof.
  intros H.
  assert (Hk : 0 < -1 < 5 \/ - 5 < -1 < 0) by lia.
  specialize (H (-1) 5 Hk). vm_compute in H. discriminate H.
Qed.

(** C1 (amended): for an integer [k] with [0 < k < N], [validate_range(k, N)]
    returns [(0, N, k)]; for [-N < k < 0] it raises the [ValueError] of the
    direction test. *)
Theorem validate_range_int (k N : Z) :
  (0 < k < N -> validate_range (ArgInt k) N = Ok (0, N, k)) /\
  (- N < k < 0 -> validate_range (ArgInt k) N = Raise (ValueError BadDirection)).
Proof.
  split; intros H.
  - apply validate_range_ok. simpl. unfold wrong_direction, wrap_index.
    cases_Z; repeat split; lia.
  - unfold validate_range. simpl. cases_Z; try lia; reflexivity.
Qed.

Lemma validate_range_int_witness :
  validate_range (ArgInt 2) 5 = Ok (0, 5, 2) /\
  validate_range (ArgInt (-2)) 5 = Raise (ValueError BadDirection).
Proof.
  split.
  - apply (proj1 (validate_range_int 2 5)). lia.
  - apply (proj2 (validate_range_int (-2) 5)). lia.
Defined.

(** C2, counterexample: with start equal to stop no direction of the step
    is rejected; [(2, 2, 1)] and [(2, 2, -1)] both pass on an axis of
    length 5. *)
Lemma validate_range_equal_ends_accepted :
  ~ (exists neg : bool, forall arg N start step,
       extracted arg N = (start, start, step) -> step <> 0 ->
       (step <? 0) = neg ->
       is_value_error (validate_range arg N) = true).
Proof.
  intros [neg H]. destruct neg.
  - specialize (H (ArgTuple [Some 2; Some 2; Some (-1)]) 5 2 (-1) eq_refl).
    assert (Hn : -1 <> 0) by lia.
    specialize (H Hn eq_refl). vm_compute in H. discriminate H.
  - specialize (H (ArgTuple [Some 2; Some 2; Some 1]) 5 2 1 eq_refl).
    assert (Hn : 1 <> 0) by lia.
    specialize (H Hn eq_refl). vm_compute in H. discriminate H.
Qed.

(** C2 (amended): [validate_range] raises [ValueError] when the extracted
    step is 0, when the step points against the order of two different
    extracted indices (step < 0 with stop > start, step > 0 with
    start > stop), and when the extracted start or stop lies outside
    [[-N, N]]; with start equal to stop the direction test never raises. *)
Theorem validate_range_rejects (arg : range_arg) (N start stop step : Z) :
  extracted arg N = (start, stop, step) ->
  (step = 0 -> is_value_error (validate_range arg N) = true) /\
  (wrong_direction start stop step ->
     start <> stop /\ is_value_error (validate_range arg N) = true) /\
  (start < - N \/ N < start \/ stop < - N \/ N < stop ->
     is_value_error (validate_range arg N) = true) /\
  (start = stop -> validate_range arg N <> Raise (ValueError BadDirection)).
Proof.
  intros E.
  assert (R : forall P : Prop,
             (forall t, validate_range arg N = Ok t -> P -> False) ->
             P -> is_value_error (validate_range arg N) = true).
  { intros P HP p. destruct (validate_range arg N) as [t|e] eqn:V.
    - exfalso. exact (HP t eq_refl p).
    - rewrite <- V. eapply validate_range_raises. exact V. }
  repeat split.
  - apply R. intros t V. apply validate_range_ok in V. rewrite E in V. lia.
  - unfold wrong_direction in *. lia.
  - revert H. apply R. intros t V. apply validate_range_ok in V.
    rewrite E in V. tauto.
  - apply R. intros t V. apply validate_range_ok in V. rewrite E in V. lia.
  - intros -> V. revert V. unfold validate_range. rewrite E.
    cases_Z; try discriminate; lia.
Qed.

Lemma validate_range_rejects_witness :
  is_value_error (validate_range (ArgTuple [Some 0; Some 3; Some 0]) 5) = true /\
  (3 <> 1 /\ is_value_error (validate_range (ArgTuple [Some 3; Some 1; Some 1]) 5) = true) /\
  is_value_error (validate_range (ArgTuple [Some 0; Some 9; Some 1]) 5) = true /\
  validate_range (ArgTuple [Some 2; Some 2; Some (-1)]) 5 <> Raise (ValueError BadDirection).
Proof.
  split; [|split; [|split]].
  - destruct (validate_range_rejects (ArgTuple [Some 0; Some 3; Some 0]) 5 0 3 0 eq_refl)
      as (H & _).
    apply H. reflexivity.
  - destruct (validate_range_rejects (ArgTuple [Some 3; Some 1; Some 1]) 5 3 1 1 eq_refl)
      as (_ & H & _).
    apply H. right. lia.
  - destruct (validate_range_rejects (ArgTuple [Some 0; Some 9; Some 1]) 5 0 9 1 eq_refl)
      as (_ & _ & H & _).
    apply H. lia.
  - destruct (validate_range_rejects (ArgTuple [Some 2; Some 2; Some (-1)]) 5 2 2 (-1) eq_refl)
      as (_ & _ & _ & H).
    apply H. reflexivity.
Defined.

(** C3, at the failing input: on an axis of length 1 the default argument
    is rejected by the step test ([0 < 1 < 1] is false), and so is every
    other argument. *)
Theorem validate_range_length_one :
  validate_range ArgNone 1 = Raise (ValueError BadStep) /\
  forall arg, is_value_error (validate_range arg 1) = true.
Proof.
  split; [reflexivity|].
  intros arg. destruct (validate_range arg 1) as [t|e] eqn:V.
  - apply validate_range_ok in V.
    destruct (extracted arg 1) as [[start stop] step]. lia.
  - rewrite <- V. eapply validate_range_raises. exact V.
Qed.

(** C5: every triple returned by [validate_range] has
    [0 <= start < siz] and [0 <= stop <= siz]. *)
Theorem validate_range_normalized (arg : range_arg) (siz start stop step : Z) :
  validate_range arg siz = Ok (start, stop, step) ->
  0 <= start < siz /\ 0 <= stop <= siz.
Proof.
  intros V. destruct (validate_range_bounds arg siz start stop step V) as (Hs & He & _).
  split; assumption.
Qed.

Lemma validate_range_normalized_witness :
  validate_range (ArgTuple [Some (-2); Some (-1); Some 1]) 5 = Ok (3, 4, 1) /\
  (0 <= 3 < 5 /\ 0 <= 4 <= 5).
Proof.
  split; [reflexivity|].
  apply (validate_range_normalized (ArgTuple [Some (-2); Some (-1); Some 1]) 5 3 4 1).
  reflexivity.
Defined.

(** C10: for [siz >= 2], [reverse_range(None, siz)] is
    [(siz - 1, -1, -1)], whose stop is not within [[0, siz]]. *)
Theorem reverse_range_none (siz : Z) :
  2 <= siz ->
  reverse_range ArgNone siz = Ok (siz - 1, -1, -1) /\
  ~ normalized siz (siz - 1, -1, -1).
Proof.
  intros H. split.
  - unfold reverse_range. rewrite (validate_range_none siz H). simpl.
    f_equal. f_equal. f_equal; lia.
  - unfold normalized. lia.
Qed.

Lemma reverse_range_none_witness :
  reverse_range ArgNone 5 = Ok (4, -1, -1) /\ ~ normalized 5 (4, -1, -1).
Proof.
  apply (reverse_range_none 5). lia.
Defined.

(** ** reverse_range and the traversal *)

Example py_range_up : py_range (0, 5, 2) = [0; 2; 4].
Proof. reflexivity. Qed.

Example py_range_down : py_range (4, -1, -1) = [4; 3; 2; 1; 0].
Proof. reflexivity. Qed.

Example py_range_empty : py_range (4, 4, -1) = [] /\ py_range (0, 0, 1) = [].
Proof. split; reflexivity. Qed.

Lemma range_len_mirror (siz start stop step : Z) :
  range_len (mirror siz start, mirror siz stop, - step) = range_len (start, stop, step).
Proof.
  unfold range_len, mirror.
  destruct (Z.ltb_spec 0 step) as [Hp|Hp].
  - destruct (Z.ltb_spec 0 (- step)); [lia|].
    destruct (Z.ltb_spec (- step) 0); [|lia].
    destruct (Z.ltb_spec (siz - 1 - stop) (siz - 1 - start));
      destruct (Z.ltb_spec start stop); try lia.
    rewrite Z.opp_involutive. do 2 f_equal. lia.
  - destruct (Z.ltb_spec step 0) as [Hn|Hn].
    + destruct (Z.ltb_spec 0 (- step)); [|lia].
      destruct (Z.ltb_spec (siz - 1 - start) (siz - 1 - stop));
        destruct (Z.ltb_spec stop start); try lia.
      do 2 f_equal. lia.
    + assert (step = 0) by lia. subst. reflexivity.
Qed.

Lemma py_range_mirror (siz start stop step : Z) :
  py_range (mirror siz start, mirror siz stop, - step) =
  map (mirror siz) (py_range (start, stop, step)).
Proof.
  unfold py_range. rewrite range_len_mirror, map_map.
  apply map_ext. intros i. unfold mirror. lia.
Qed.

(** A normalized triple whose step agrees with the order of its indices,
    and whose stop is not negative, is returned unchanged. *)
Lemma validate_range_fixed (siz start stop step : Z) :
  0 <= start < siz -> 0 <= stop <= siz ->
  0 < step < siz \/ - siz < step < 0 ->
  direction_ok (start, stop, step) ->
  validate_range (of_triple (start, stop, step)) siz = Ok (start, stop, step).
Proof.
  intros Hs He Hst Hd. apply validate_range_ok. simpl.
  unfold direction_ok, wrong_direction, wrap_index in *.
  cases_Z; repeat split; try lia.
Qed.

(** C4, counterexample.  On an axis of length 5 the default argument
    normalizes to [(0, 5, 1)], visiting 0..4; its reversal [(4, -1, -1)]
    is normalized again to [(4, 4, -1)] (the stop -1 is taken as an index
    from the end), and the second reversal gives [(0, 0, 1)], which visits
    nothing.  And [(0, 3, 1)] comes back as [(0, 3, 1)]: the same order,
    not the reverse one. *)
Lemma double_reverse_counterexample :
  ~ double_reverse_same_set /\ ~ double_reverse_reversed.
Proof.
  split; intros H.
  - destruct (H ArgNone 5 (0, 5, 1) eq_refl) as (t2 & D & S).
    vm_compute in D. inversion D; subst t2.
    destruct (proj2 (S 0)) as []. simpl. left. reflexivity.
  - destruct (H (ArgTuple [Some 0; Some 3; Some 1]) 5 (0, 3, 1) eq_refl) as (t2 & D & S).
    vm_compute in D. inversion D; subst t2.
    vm_compute in S. discriminate S.
Qed.

(** C4 (amended): whenever [validate_range] succeeds with
    [(start, stop, step)], [reverse_range] visits the mirror images
    [siz - 1 - i] of the indices the original visits, in the same sequence;
    and when moreover [stop < siz] and the step agrees with the order of
    [start] and [stop], reversing, normalizing again and reversing returns
    [(start, stop, step)] itself: the same indices in the original
    order. *)
Theorem reverse_range_twice (arg : range_arg) (siz start stop step : Z) :
  validate_range arg siz = Ok (start, stop, step) ->
  (exists r1, reverse_range arg siz = Ok r1 /\
              py_range r1 = map (mirror siz) (py_range (start, stop, step))) /\
  (stop < siz -> direction_ok (start, stop, step) ->
     double_reverse arg siz = Ok (start, stop, step)).
Proof.
  intros V.
  assert (R : reverse_range arg siz = Ok (mirror siz start, mirror siz stop, - step)).
  { unfold reverse_range. rewrite V. reflexivity. }
  split.
  - eexists. split; [exact R|]. apply py_range_mirror.
  - intros Hlt Hd.
    pose proof (validate_range_bounds _ _ _ _ _ V) as (Hs & He & Hst).
    unfold double_reverse. rewrite R. cbn [bind].
    assert (F : validate_range (of_triple (mirror siz start, mirror siz stop, - step)) siz
                = Ok (mirror siz start, mirror siz stop, - step)).
    { apply validate_range_fixed; unfold mirror, direction_ok in *; lia. }
    rewrite F. cbn [bind]. unfold reverse_range. rewrite F. cbn [bind].
    unfold mirror. f_equal. f_equal; [f_equal|]; lia.
Qed.

Lemma reverse_range_twice_witness :
  (exists r1, reverse_range (ArgTuple [Some 0; Some 3; Some 1]) 5 = Ok r1 /\
              py_range r1 = map (mirror 5) (py_range (0, 3, 1))) /\
  double_reverse (ArgTuple [Some 0; Some 3; Some 1]) 5 = Ok (0, 3, 1).
Proof.
  destruct (reverse_range_twice (ArgTuple [Some 0; Some 3; Some 1]) 5 0 3 1 eq_refl)
    as [H1 H2].
  split; [exact H1|]. apply H2.
  - lia.
  - unfold direction_ok. lia.
Defined.

(** ** get_seconds *)

Import Time.

Ltac int64_arith :=
  unfold int64_sub, int64_mul, wrap64, in_int64, int64_min, int64_max in *;
  change (2 ^ 63) with 9223372036854775808 in *;
  change (2 ^ 64) with 18446744073709551616 in *;
  Z.div_mod_to_equations; lia.

Lemma wrap64_range (z : Z) : in_int64 (wrap64 z).
Proof. int64_arith. Qed.

Lemma wrap64_id (z : Z) : in_int64 z -> wrap64 z = z.
Proof. intros H. int64_arith. Qed.

(** Swapping the operands negates the wrapped difference, except at the
    least [int64], which is its own negation. *)
Lemma int64_sub_swap (a b : Z) :
  int64_sub a b <> int64_min -> int64_sub b a = - int64_sub a b.
Proof. intros H. int64_arith. Qed.

Lemma int64_sub_swap_min (a b : Z) :
  int64_sub a b = int64_min -> int64_sub b a = int64_min.
Proof. intros H. int64_arith. Qed.

Lemma int64_sub_self (a : Z) : int64_sub a a = 0.
Proof. unfold int64_sub. rewrite Z.sub_diag. reflexivity. Qed.

(** *** Sign symmetry of the binary64 operations *)

Section Binary.

Variables prec emax : Z.

Lemma binary_round_aux_opp (s : bool) (m e : Z) (l : location) :
  binary_round_aux prec emax (negb s) m e l = SFopp (binary_round_aux prec emax s m e l).
Proof.
  unfold binary_round_aux.
  destruct (shr_fexp prec emax m e l) as [mrs' e'].
  destruct (shr_fexp prec emax _ e' loc_Exact) as [mrs'' e''].
  destruct (shr_m mrs''); try reflexivity.
  destruct (e'' <=? emax - prec); reflexivity.
Qed.

Lemma binary_round_opp (s : bool) (m : positive) (e : Z) :
  binary_round prec emax (negb s) m e = SFopp (binary_round prec emax s m e).
Proof.
  unfold binary_round.
  destruct (shl_align m e _) as [mz ez]. apply binary_round_aux_opp.
Qed.

Lemma SFmul_opp_l (x y : spec_float) :
  SFmul prec emax (SFopp x) y = SFopp (SFmul prec emax x y).
Proof.
  destruct x as [sx|sx| |sx mx ex], y as [sy|sy| |sy my ey]; simpl;
    try reflexivity; try (destruct sx, sy; reflexivity).
  replace (xorb (negb sx) sy) with (negb (xorb sx sy)) by (destruct sx, sy; reflexivity).
  apply binary_round_aux_opp.
Qed.

(** Rounding a non-negative mantissa never gives NaN. *)
Lemma shr_1_nonneg (mrs : shr_record) : 0 <= shr_m mrs -> 0 <= shr_m (shr_1 mrs).
Proof.
  destruct mrs as [m r s]. simpl.
  destruct m as [|p|p]; [| |lia]; try destruct p; simpl; lia.
Qed.

Lemma iter_shr_1_nonneg (p : positive) (mrs : shr_record) :
  0 <= shr_m mrs -> 0 <= shr_m (SpecFloat.iter_pos shr_1 p mrs).
Proof.
  revert mrs. induction p as [p IH|p IH|]; intros mrs H; simpl.
  - apply IH, IH, shr_1_nonneg, H.
  - apply IH, IH, H.
  - apply shr_1_nonneg, H.
Qed.

Lemma shr_fexp_nonneg (m e : Z) (l : location) :
  0 <= m -> 0 <= shr_m (fst (shr_fexp prec emax m e l)).
Proof.
  intros H. unfold shr_fexp, shr.
  assert (H0 : 0 <= shr_m (shr_record_of_loc m l)).
  { destruct l as [|[ | | ]]; exact H. }
  destruct (fexp prec emax (Zdigits2 m + e) - e); simpl; try exact H0.
  apply iter_shr_1_nonneg, H0.
Qed.

Lemma round_nearest_even_nonneg (m : Z) (l : location) :
  0 <= m -> 0 <= round_nearest_even m l.
Proof.
  intros H. destruct l as [|[ | | ]]; simpl; try lia.
  destruct (Z.even m); lia.
Qed.

Lemma binary_round_aux_not_nan (s : bool) (m e : Z) (l : location) :
  0 <= m -> is_nan (binary_round_aux prec emax s m e l) = false.
Proof.
  intros H. unfold binary_round_aux.
  pose proof (shr_fexp_nonneg m e l H) as H1.
  destruct (shr_fexp prec emax m e l) as [mrs' e']. simpl in H1.
  pose proof (shr_fexp_nonneg _ e' loc_Exact
                (round_nearest_even_nonneg (shr_m mrs') (loc_of_shr_record mrs') H1)) as H2.
  destruct (shr_fexp prec emax _ e' loc_Exact) as [mrs'' e'']. simpl in H2.
  destruct (shr_m mrs''); try reflexivity; [|lia].
  destruct (e'' <=? emax - prec); reflexivity.
Qed.

Lemma binary_normalize_not_nan (z e : Z) (s : bool) :
  is_nan (binary_normalize prec emax z e s) = false.
Proof.
  destruct z as [|p|p]; simpl; try reflexivity; unfold binary_round;
    destruct (shl_align p e _) as [mz ez]; apply binary_round_aux_not_nan; lia.
Qed.

Lemma binary_normalize_opp (z e : Z) (s : bool) :
  z <> 0 ->
  binary_normalize prec emax (- z) e s = SFopp (binary_normalize prec emax z e s).
Proof.
  intros H. destruct z as [|p|p]; [lia| |]; simpl.
  - apply (binary_round_opp false).
  - rewrite (binary_round_opp false). destruct (binary_round prec emax false p e) as [[]|[]| |[] ? ?]; reflexivity.
Qed.

Lemma SFmul_finite_not_nan (x y : spec_float) :
  is_nan x = false -> is_finite y = true -> is_nan (SFmul prec emax x y) = false.
Proof.
  destruct x as [sx|sx| |sx mx ex], y as [sy|sy| |sy my ey]; simpl;
    intros Hx Hy; try discriminate; try reflexivity.
  apply binary_round_aux_not_nan. lia.
Qed.

End Binary.

Lemma SFopp_involutive (x : spec_float) : SFopp (SFopp x) = x.
Proof. destruct x as [[]|[]| |[] ? ?]; reflexivity. Qed.

Lemma SFeqb_refl (x : spec_float) : is_nan x = false -> SFeqb x x = true.
Proof.
  unfold SFeqb. destruct x as [s|s| |s m e]; simpl; intros H; try discriminate.
  - reflexivity.
  - destruct s; reflexivity.
  - rewrite Z.compare_refl, Pos.compare_cont_refl. destruct s; reflexivity.
Qed.

(** *** The scaled difference *)

Lemma get_seconds_unfold (dt1 dt2 : datetime64) (p : string) (u : time_unit) (sc : scale_t) :
  unit_of_precision p = Some u -> scale_of p = Ok sc ->
  get_seconds dt1 dt2 p = Ok (scaled (tick_delta dt1 dt2 u) sc).
Proof.
  intros Hu Hs. unfold get_seconds. rewrite Hs, Hu. reflexivity.
Qed.

Lemma precisions_inv (p : string) :
  In p precisions ->
  exists u sc, unit_of_precision p = Some u /\ scale_of p = Ok sc /\ scale_ok sc /\
               feq (scaled int64_min sc) (fneg (scaled int64_min sc)) = false.
Proof.
  intros [<-|[<-|[<-|[<-|[]]]]].
  - exists U_s, (ScaleInt 1). repeat split; reflexivity.
  - exists U_ms, (ScaleFloat lit_1e_3). repeat split; reflexivity.
  - exists U_us, (ScaleFloat lit_1e_6). repeat split; reflexivity.
  - exists U_ns, (ScaleFloat lit_1e_9). repeat split; reflexivity.
Qed.

Lemma scaled_not_nan (d : Z) (sc : scale_t) :
  scale_ok sc -> is_nan (scaled d sc) = false.
Proof.
  destruct sc as [n|x]; simpl; intros H.
  - apply binary_normalize_not_nan.
  - apply SFmul_finite_not_nan; [apply binary_normalize_not_nan|exact H].
Qed.

Lemma scaled_opp (d : Z) (sc : scale_t) :
  scale_ok sc -> in_int64 d -> d <> int64_min -> d <> 0 ->
  scaled (- d) sc = fneg (scaled d sc).
Proof.
  destruct sc as [n|x]; simpl; intros H Hr Hm H0.
  - subst n. unfold int64_mul. rewrite !Z.mul_1_r.
    rewrite (wrap64_id d Hr), (wrap64_id (- d)) by int64_arith.
    apply binary_normalize_opp, H0.
  - unfold fmul, fneg, float_of_Z. rewrite binary_normalize_opp by exact H0.
    apply SFmul_opp_l.
Qed.

Lemma scaled_zero (sc : scale_t) :
  scale_ok sc -> feq (scaled 0 sc) (fneg (scaled 0 sc)) = true.
Proof.
  destruct sc as [n|x]; simpl; intros H.
  - subst n. reflexivity.
  - destruct x as [s|s| |s m e]; try discriminate. reflexivity.
Qed.

Lemma scaled_antisymmetric (sc : scale_t) (a b : Z) :
  scale_ok sc ->
  feq (scaled int64_min sc) (fneg (scaled int64_min sc)) = false ->
  feq (scaled (int64_sub a b) sc) (fneg (scaled (int64_sub b a) sc)) = true <->
  int64_sub a b <> int64_min.
Proof.
  intros Hok Hmin.
  destruct (Z.eq_dec (int64_sub a b) int64_min) as [E|E].
  - rewrite (int64_sub_swap_min a b E), E, Hmin. split; [discriminate|contradiction].
  - split; [intros _; exact E|intros _].
    rewrite (int64_sub_swap a b E).
    destruct (Z.eq_dec (int64_sub a b) 0) as [Z0|Z0].
    + rewrite Z0. apply scaled_zero, Hok.
    + rewrite (scaled_opp (int64_sub a b) sc Hok (wrap64_range (a - b)) E Z0).
      unfold fneg. rewrite SFopp_involutive.
      apply SFeqb_refl, scaled_not_nan, Hok.
Qed.

(** C6, counterexample.  The instants of -2^62 and 2^62 microseconds are
    both valid [datetime64[us]] values.  Their difference in one order is
    -2^63; in the other order it is 2^63, which wraps to -2^63 in [int64].
    Both calls return -9223372036854.775, so neither is the negation of the
    other. *)
Lemma get_seconds_overflow :
  ~ (forall dt1 dt2 p,
       in_int64 (dt_ticks dt1) -> dt_ticks dt1 <> NaT ->
       in_int64 (dt_ticks dt2) -> dt_ticks dt2 <> NaT ->
       In p precisions ->
       exists x y, get_seconds dt1 dt2 p = Ok x /\ get_seconds dt2 dt1 p = Ok y /\
                   feq x (fneg y) = true).
Proof.
  intros H.
  destruct (H {| dt_unit := U_us; dt_ticks := - 2 ^ 62 |}
              {| dt_unit := U_us; dt_ticks := 2 ^ 62 |} "us"%string)
    as (x & y & Hx & Hy & E).
  - unfold in_int64, int64_min, int64_max. simpl. lia.
  - unfold NaT, int64_min. simpl. lia.
  - unfold in_int64, int64_min, int64_max. simpl. lia.
  - unfold NaT, int64_min. simpl. lia.
  - simpl. tauto.
  - vm_compute in Hx, Hy. inversion Hx; inversion Hy; subst.
    vm_compute in E. discriminate E.
Qed.

(** C6 (amended): for all instants [dt1], [dt2] and every precision [p] among
    ['s'], ['ms'], ['us'], ['ns'], both calls return a float, and
    [get_seconds(dt1, dt2, p) == -get_seconds(dt2, dt1, p)] holds exactly when
    the [int64] difference of the tick counts at precision [p] is not
    -2^63, hence whenever the exact difference lies strictly between -2^63
    and 2^63; and [get_seconds(t, t, 'us')] is [0.0] for every instant. *)
Theorem get_seconds_antisymmetric :
  (forall dt1 dt2 p, In p precisions ->
     exists u x y, unit_of_precision p = Some u /\
       get_seconds dt1 dt2 p = Ok x /\ get_seconds dt2 dt1 p = Ok y /\
       (feq x (fneg y) = true <-> tick_delta dt1 dt2 u <> int64_min) /\
       (- 2 ^ 63 < ticks_at dt1 u - ticks_at dt2 u < 2 ^ 63 -> feq x (fneg y) = true)) /\
  (forall t, get_seconds t t "us" = Ok (S754_zero false)).
Proof.
  split.
  - intros dt1 dt2 p Hp.
    destruct (precisions_inv p Hp) as (u & sc & Hu & Hs & Hok & Hmin).
    exists u, (scaled (tick_delta dt1 dt2 u) sc), (scaled (tick_delta dt2 dt1 u) sc).
    split; [exact Hu|].
    split; [apply get_seconds_unfold; assumption|].
    split; [apply get_seconds_unfold; assumption|].
    pose proof (scaled_antisymmetric sc (ticks_at dt1 u) (ticks_at dt2 u) Hok Hmin) as A.
    split; [exact A|].
    intros B. apply A. int64_arith.
  - intros t. rewrite (get_seconds_unfold t t "us" U_us (ScaleFloat lit_1e_6) eq_refl eq_refl).
    unfold tick_delta. rewrite int64_sub_self. reflexivity.
Qed.

Lemma get_seconds_antisymmetric_witness :
  exists x y,
    get_seconds {| dt_unit := U_us; dt_ticks := 5000000 |}
                {| dt_unit := U_s; dt_ticks := 2 |} "us" = Ok x /\
    get_seconds {| dt_unit := U_s; dt_ticks := 2 |}
                {| dt_unit := U_us; dt_ticks := 5000000 |} "us" = Ok y /\
    feq x (fneg y) = true.
Proof.
  destruct (proj1 get_seconds_antisymmetric
              {| dt_unit := U_us; dt_ticks := 5000000 |}
              {| dt_unit := U_s; dt_ticks := 2 |} "us"%string)
    as (u & x & y & Hu & Hx & Hy & _ & H).
  - simpl. tauto.
  - exists x, y. split; [exact Hx|]. split; [exact Hy|].
    apply H. injection Hu as <-. vm_compute. split; reflexivity.
Defined.

(** ** parse_xml_from_string *)

Import Xml.

Lemma py_dict_snoc (events : list (string * string)) (k v : string) :
  py_dict (events ++ [(k, v)]) = <[k := v]> (py_dict events).
Proof. unfold py_dict. rewrite fold_left_app. reflexivity. Qed.

Lemma fold_insert_lookup_other (post : list (string * string)) (m : gmap string string)
    (k : string) :
  (forall kv, In kv post -> kv.1 <> k) ->
  fold_left (fun m kv => <[kv.1 := kv.2]> m) post m !! k = m !! k.
Proof.
  revert m. induction post as [|kv post IH]; intros m H; simpl; [reflexivity|].
  rewrite IH by (intros kv' Hin; apply H; right; exact Hin).
  apply lookup_insert_ne. apply H. left. reflexivity.
Qed.

(** [dict(pairs)] binds a key to the value of its last pair. *)
Lemma py_dict_last_declared (events : list (string * string)) (k v : string) :
  last_declared events k v -> py_dict events !! k = Some v.
Proof.
  intros (pre & post & -> & H). unfold py_dict.
  rewrite fold_left_app. simpl.
  rewrite fold_insert_lookup_other by exact H.
  apply lookup_insert_eq.
Qed.

Lemma py_dict_size (events : list (string * string)) :
  size (py_dict events) = 0%nat <-> events = [].
Proof.
  split.
  - destruct events as [|kv events] using rev_ind; [reflexivity|].
    destruct kv as [k v]. rewrite py_dict_snoc. intros H.
    apply map_size_empty_iff in H. exfalso. exact (insert_non_empty _ _ _ H).
  - intros ->. reflexivity.
Qed.

Lemma namespace_dict_none (events : list (string * string)) :
  namespace_dict events = None <-> events = [].
Proof.
  unfold namespace_dict. rewrite <- py_dict_size.
  destruct (Nat.eqb_spec (size (py_dict events)) 0) as [E|E].
  - tauto.
  - split; [|contradiction]. destruct (py_dict events !! ""%string); discriminate.
Qed.

(** C7, counterexample: the start-ns events of [<a xmlns="urn:a"/>] are
    [[("", "urn:a")]]; the mapping returned for them still has the empty
    prefix as a key, next to ["default"]. *)
Lemma namespace_dict_keeps_empty_prefix :
  ~ (forall events m, namespace_dict events = Some m -> m !! ""%string = None).
Proof.
  intros H.
  specialize (H [(""%string, "urn:a"%string)] _ eq_refl).
  vm_compute in H. discriminate H.
Qed.

Section ParserFacts.

Variable Element : Type.
Variable fromstring : string -> result Element.
Variable start_ns : string -> list (string * string).

(** C7 (amended): for a document that [fromstring] accepts,
    [parse_xml_from_string] returns its root element and the mapping of
    the declared prefixes to their URIs; no mapping exactly when the
    document declares no namespace; and when it declares a default
    namespace, the mapping binds ["default"] to the URI of the last such
    declaration, in addition to the empty prefix, which is kept.  Every
    prefix other than ["default"] is bound as in the [dict] of the
    declarations. *)
Theorem parse_xml_namespaces (xml : xml_input) (root : Element) :
  fromstring (as_text xml) = Ok root ->
  exists ns,
    parse_xml_from_string Element fromstring start_ns xml = Ok (root, ns) /\
    (ns = None <-> start_ns (as_text xml) = []) /\
    (forall uri, last_declared (start_ns (as_text xml)) "" uri ->
       exists m, ns = Some m /\ m !! "default"%string = Some uri /\
                 m !! ""%string = Some uri) /\
    (forall m prefix, ns = Some m -> prefix <> "default"%string ->
       m !! prefix = py_dict (start_ns (as_text xml)) !! prefix).
Proof.
  intros F. exists (namespace_dict (start_ns (as_text xml))).
  split; [unfold parse_xml_from_string; rewrite F; reflexivity|].
  split; [apply namespace_dict_none|].
  set (events := start_ns (as_text xml)).
  split.
  - intros uri L.
    pose proof (py_dict_last_declared events _ _ L) as D.
    unfold namespace_dict.
    destruct (Nat.eqb_spec (size (py_dict events)) 0) as [E|E].
    + apply map_size_empty_iff in E. rewrite E in D. rewrite lookup_empty in D.
      discriminate D.
    + rewrite D. eexists. split; [reflexivity|]. split.
      * apply lookup_insert_eq.
      * rewrite lookup_insert_ne by discriminate. exact D.
  - intros m prefix N Hp. unfold namespace_dict in N.
    destruct (size (py_dict events) =? 0)%nat; [discriminate|].
    destruct (py_dict events !! ""%string) as [uri|]; inversion N; subst.
    + apply lookup_insert_ne. congruence.
    + reflexivity.
Qed.

End ParserFacts.

(** ** get_commercial_id *)

Import PyStr Iceye.

Example float_720 : float_of_Z 720 = S754_finite false 6333186975989760 (-43).
Proof. reflexivity. Qed.

Lemma smap_app (f : ascii -> ascii) (s t : string) :
  smap f (s ++ t)%string = (smap f s ++ smap f t)%string.
Proof. induction s as [|a s IH]; simpl; [reflexivity|]. rewrite IH. reflexivity. Qed.

Lemma prefix_app (p t : string) : String.prefix p (p ++ t)%string = true.
Proof.
  induction p as [|a p IH]; simpl; [destruct t; reflexivity|].
  destruct (ascii_dec a a) as [_|N]; [exact IH|contradiction].
Qed.

Lemma prefix_lower (p s : string) :
  String.prefix p (lower s) = true ->
  exists h t, s = (h ++ t)%string /\ lower h = p.
Proof.
  revert s. induction p as [|a p IH]; intros s H.
  - exists EmptyString, s. split; reflexivity.
  - destruct s as [|c s]; simpl in H; [discriminate|].
    destruct (ascii_dec a (lower_char c)) as [E|N]; [|discriminate].
    destruct (IH s H) as (h & t & -> & L).
    exists (String c h), t. split; [reflexivity|].
    unfold lower in *. simpl. rewrite E, L. reflexivity.
Qed.

(** The test of line 26 is the case-insensitive prefix test. *)
Lemma startswith_lower (p s : string) :
  lower p = p ->
  startswith p (lower s) = true <-> starts_with_ignoring_case p s.
Proof.
  intros Hp. unfold startswith, starts_with_ignoring_case. split.
  - intros H. destruct (prefix_lower p s H) as (h & t & E & L).
    exists h, t. rewrite Hp. auto.
  - intros (h & t & -> & L). unfold lower in *. rewrite smap_app, L, Hp.
    apply prefix_app.
Qed.

(** C8: [get_commercial_id('ICEYE-X2', '20210101', 720.0, 5)] is
    ['20210101'], ['NI'], ['X2'], the pass number
    [round(720.0 * 15 / 1440) = 8] on two digits, and the product number on
    three digits; and a collector that does not begin, up to case, with
    ['iceye'] gets [None]. *)
Theorem get_commercial_id_iceye :
  (get_commercial_id "ICEYE-X2" "20210101" (float_of_Z 720) 5
   = Ok (Some ("20210101" ++ "NI" ++ "X2" ++ "08" ++ "005")%string) /\
   py_round (fdiv (fmul (float_of_Z 720) (float_of_Z _orbits_per_day)) (float_of_Z 1440))
   = Ok 8 /\
   format_0d 2 8 = "08"%string /\ format_0d 3 5 = "005"%string) /\
  (forall collector cdate_str cdate_mins product_number,
     ~ starts_with_ignoring_case "iceye" collector ->
     get_commercial_id collector cdate_str cdate_mins product_number = Ok None).
Proof.
  split.
  - repeat split; reflexivity.
  - intros collector cdate_str cdate_mins product_number H.
    unfold get_commercial_id.
    destruct (startswith "iceye" (lower collector)) eqn:E; [|reflexivity].
    exfalso. apply H. apply startswith_lower; [reflexivity|exact E].
Qed.

Lemma get_commercial_id_iceye_witness :
  get_commercial_id "OtherSensor" "20210101" (float_of_Z 720) 5 = Ok None.
Proof.
  apply (proj2 get_commercial_id_iceye).
  intros H. apply (startswith_lower "iceye" "OtherSensor" eq_refl) in H.
  discriminate H.
Defined.

(** ** parse_timestring *)

Import TimeString.

Lemma last_char_snoc (s : string) (c : ascii) :
  last_char (s ++ String c EmptyString) = Ok c.
Proof.
  induction s as [|a s IH]; simpl; [reflexivity|].
  rewrite IH. destruct (s ++ String c EmptyString)%string eqn:E; [|reflexivity].
  destruct s; discriminate E.
Qed.

Lemma but_last_snoc (s : string) (c : ascii) :
  but_last (s ++ String c EmptyString) = s.
Proof.
  induction s as [|a s IH]; simpl; [reflexivity|].
  rewrite IH. destruct (s ++ String c EmptyString)%string eqn:E; [|reflexivity].
  destruct s; discriminate E.
Qed.

Lemma but_last_last (s : string) (c : ascii) :
  last_char s = Ok c -> (but_last s ++ String c EmptyString)%string = s.
Proof.
  induction s as [|a s IH]; intros L; [discriminate|].
  destruct s as [|b s].
  - simpl in L. inversion L. reflexivity.
  - transitivity (String a (but_last (String b s) ++ String c EmptyString));
      [reflexivity|].
    f_equal. apply IH. exact L.
Qed.

(** A string without trailing whitespace ends in a character that is not
    whitespace. *)
Lemma rstrip_fixed_last (s : string) :
  s <> EmptyString -> rstrip s = s ->
  exists c, last_char s = Ok c /\ is_space c = false.
Proof.
  induction s as [|a s IH]; intros Hne H; [contradiction|].
  simpl in H. destruct s as [|b s].
  - simpl in H. destruct (is_space a) eqn:Sa; [discriminate|].
    exists a. split; [reflexivity|exact Sa].
  - destruct (rstrip (String b s)) as [|b' r] eqn:R.
    + destruct (is_space a); discriminate H.
    + injection H as -> ->. destruct IH as (c & L & Sc); [discriminate|reflexivity|].
      exists c. split; [exact L|exact Sc].
Qed.

Lemma rstrip_id (s : string) (c : ascii) :
  last_char s = Ok c -> is_space c = false -> rstrip s = s.
Proof.
  induction s as [|a s IH]; intros L Sc; [reflexivity|].
  destruct s as [|b s].
  - simpl in *. inversion L; subst. rewrite Sc. reflexivity.
  - change (last_char (String b s) = Ok c) in L.
    change (rstrip (String a (String b s)))
      with (match rstrip (String b s) with
            | EmptyString => if is_space a then EmptyString else String a EmptyString
            | r => String a r
            end).
    rewrite (IH L Sc). reflexivity.
Qed.

Lemma lstrip_last (s : string) (c : ascii) :
  last_char s = Ok c -> is_space c = false -> last_char (lstrip s) = Ok c.
Proof.
  induction s as [|a s IH]; intros L Sc; [discriminate|].
  simpl. destruct (is_space a) eqn:Sa; [|exact L].
  destruct s as [|b s].
  - simpl in L. inversion L; subst. congruence.
  - apply IH; assumption.
Qed.

Lemma strip_last (s : string) (c : ascii) :
  last_char s = Ok c -> is_space c = false -> last_char (strip s) = Ok c.
Proof.
  intros L Sc. unfold strip. rewrite (rstrip_id s c L Sc).
  apply lstrip_last; assumption.
Qed.

Section ParseFacts.

Variable datetime64_of_string : string -> string -> result datetime64.

(** With the designator appended, the parser is called on the text
    before it. *)
Lemma parse_timestring_Z (s p : string) :
  parse_timestring datetime64_of_string (s ++ "Z") p = datetime64_of_string s p.
Proof.
  unfold parse_timestring.
  rewrite (strip_last (s ++ "Z") "Z" (last_char_snoc s "Z") eq_refl).
  cbn [bind]. rewrite Ascii.eqb_refl, but_last_snoc. reflexivity.
Qed.

(** numpy reads a trailing [Z] as the UTC designator: a text it accepts
    with the designator it accepts without it, as the same instant. *)
Hypothesis designator_ignored :
  forall text p v,
    datetime64_of_string (text ++ "Z") p = Ok v -> datetime64_of_string text p = Ok v.

(** C9: for a non-empty timestamp [s] without trailing whitespace that
    the parser accepts as the instant [v], [parse_timestring(s + 'Z', p)]
    and [parse_timestring(s, p)] both return [v]. *)
Theorem parse_timestring_trailing_Z (s p : string) (v : datetime64) :
  s <> EmptyString -> rstrip s = s ->
  datetime64_of_string s p = Ok v ->
  parse_timestring datetime64_of_string (s ++ "Z") p = Ok v /\
  parse_timestring datetime64_of_string s p = Ok v.
Proof.
  intros Hne Hr Hv. split.
  - rewrite parse_timestring_Z. exact Hv.
  - destruct (rstrip_fixed_last s Hne Hr) as (c & L & Sc).
    unfold parse_timestring. rewrite (strip_last s c L Sc). cbn [bind].
    destruct (Ascii.eqb_spec c "Z") as [->|N]; [|exact Hv].
    apply designator_ignored. rewrite (but_last_last s "Z" L). exact Hv.
Qed.

End ParseFacts.

Lemma epoch_of_string_designator (text p : string) (v : datetime64) :
  epoch_of_string (text ++ "Z") p = Ok v -> epoch_of_string text p = Ok v.
Proof.
  unfold epoch_of_string.
  destruct (String.eqb_spec (text ++ "Z") "1970-01-01T00:00:00") as [E|_].
  - pose proof (last_char_snoc text "Z") as L. rewrite E in L. discriminate L.
  - destruct (String.eqb_spec (text ++ "Z") "1970-01-01T00:00:00Z") as [E|_];
      [|discriminate].
    pose proof (but_last_snoc text "Z") as B. rewrite E in B. simpl in B.
    subst text. simpl. intros H. exact H.
Qed.

Lemma parse_timestring_trailing_Z_witness :
  parse_timestring epoch_of_string "1970-01-01T00:00:00Z" "us"
    = Ok {| dt_unit := U_us; dt_ticks := 0 |} /\
  parse_timestring epoch_of_string "1970-01-01T00:00:00" "us"
    = Ok {| dt_unit := U_us; dt_ticks := 0 |}.
Proof.
  apply (parse_timestring_trailing_Z epoch_of_string epoch_of_string_designator
           "1970-01-01T00:00:00" "us").
  - discriminate.
  - reflexivity.
  - reflexivity.
Defined.

Lemma parse_xml_namespaces_witness :
  exists ns,
    parse_xml_from_string string (fun s => Ok s) (fun _ => [(""%string, "urn:a"%string)])
      (XStr "<a xmlns='urn:a'/>") = Ok ("<a xmlns='urn:a'/>"%string, ns) /\
    (ns = None <-> [(""%string, "urn:a"%string)] = []) /\
    (forall uri, last_declared [(""%string, "urn:a"%string)] "" uri ->
       exists m, ns = Some m /\ m !! "default"%string = Some uri /\
                 m !! ""%string = Some uri) /\
    (forall m prefix, ns = Some m -> prefix <> "default"%string ->
       m !! prefix = py_dict [(""%string, "urn:a"%string)] !! prefix).
Proof.
  apply (parse_xml_namespaces string (fun s => Ok s)
           (fun _ => [(""%string, "urn:a"%string)]) (XStr "<a xmlns='urn:a'/>")).
  reflexivity.
Defined.

(** * Further properties of the range functions *)

(** X1: a returned triple has a step that is not 0 and is shorter than the
    axis, and the axis has at least two elements. *)
Theorem validate_range_step (arg : range_arg) (siz start stop step : Z) :
  validate_range arg siz = Ok (start, stop, step) ->
  2 <= siz /\ step <> 0 /\ Z.abs step < siz.
Proof.
  intros V. destruct (validate_range_bounds _ _ _ _ _ V) as (_ & _ & H). lia.
Qed.

Lemma validate_range_step_witness :
  2 <= 5 /\ -2 <> 0 /\ Z.abs (-2) < 5.
Proof.
  apply (validate_range_step (ArgTuple [Some 4; Some 0; Some (-2)]) 5 4 0 (-2)).
  reflexivity.
Defined.

(** X2: a returned triple whose step agrees with the order of its indices
    is returned unchanged when it is validated again. *)
Theorem validate_range_idempotent (arg : range_arg) (siz : Z) (t : triple) :
  validate_range arg siz = Ok t -> direction_ok t ->
  validate_range (of_triple t) siz = Ok t.
Proof.
  destruct t as [[start stop] step]. intros V D.
  destruct (validate_range_bounds _ _ _ _ _ V) as (Hs & He & Hst).
  apply validate_range_fixed; assumption.
Qed.

Lemma validate_range_idempotent_witness :
  validate_range (of_triple (3, 4, 1)) 5 = Ok (3, 4, 1).
Proof.
  apply (validate_range_idempotent (ArgTuple [Some (-2); Some (-1); Some 1]) 5 (3, 4, 1)).
  - reflexivity.
  - unfold direction_ok. lia.
Defined.

(** X3: when the extracted start and stop are not negative, a successful
    call returns the extracted values as they are, and the step agrees
    with their order. *)
Theorem validate_range_nonnegative (arg : range_arg) (siz start stop step : Z) (t : triple) :
  extracted arg siz = (start, stop, step) -> 0 <= start -> 0 <= stop ->
  validate_range arg siz = Ok t ->
  t = (start, stop, step) /\ direction_ok t.
Proof.
  intros E Hs He V. apply validate_range_ok in V. rewrite E in V.
  destruct V as (_ & _ & _ & Hd & ->).
  unfold wrap_index, direction_ok, wrong_direction in *.
  destruct (Z.ltb_spec start 0); [lia|]. destruct (Z.ltb_spec stop 0); [lia|].
  split; [reflexivity|]. lia.
Qed.

Lemma validate_range_nonnegative_witness :
  (4, 0, -2) = (4, 0, -2) /\ direction_ok (4, 0, -2).
Proof.
  apply (validate_range_nonnegative (ArgTuple [Some 4; Some 0; Some (-2)]) 5 4 0 (-2)).
  - reflexivity.
  - lia.
  - lia.
  - reflexivity.
Defined.

(** X4: a tuple that is empty or has more than three entries is not
    rejected: nothing is extracted from it and the full range is
    returned, as for [None]. *)
Theorem validate_range_other_length (l : list (option Z)) (siz : Z) :
  (length l = 0 \/ 4 <= length l)%nat -> 2 <= siz ->
  validate_range (ArgTuple l) siz = Ok (0, siz, 1).
Proof.
  intros Hl Hs.
  assert (E : extracted (ArgTuple l) siz = extracted ArgNone siz).
  { destruct l as [|a [|b [|c [|d l]]]]; simpl in Hl; try lia; reflexivity. }
  rewrite <- (validate_range_none siz Hs).
  unfold validate_range. rewrite E. reflexivity.
Qed.

Lemma validate_range_other_length_witness :
  validate_range (ArgTuple [Some 1; Some 3; Some 1; Some 7]) 5 = Ok (0, 5, 1).
Proof.
  apply validate_range_other_length.
  - right. simpl. lia.
  - lia.
Defined.

(** The visited indices are [start + k * step] for [0 <= k < range_len]. *)
Lemma py_range_elem (start stop step i : Z) :
  In i (py_range (start, stop, step)) <->
  exists k, 0 <= k < range_len (start, stop, step) /\ i = start + k * step.
Proof.
  unfold py_range. rewrite in_map_iff. split.
  - intros (n & <- & Hn). apply in_seq in Hn. exists (Z.of_nat n). split; [lia|reflexivity].
  - intros (k & Hk & ->). exists (Z.to_nat k). split.
    + rewrite Z2Nat.id by lia. reflexivity.
    + apply in_seq. lia.
Qed.

Lemma range_len_up (start stop step k : Z) :
  0 < step -> 0 <= k < range_len (start, stop, step) ->
  start <= start + k * step < stop.
Proof.
  unfold range_len. intros Hp. destruct (Z.ltb_spec 0 step); [|lia].
  destruct (Z.ltb_spec start stop); [|lia]. intros Hk.
  pose proof (Z.mul_div_le (stop - start - 1) step Hp). nia.
Qed.

Lemma range_len_down (start stop step k : Z) :
  step < 0 -> 0 <= k < range_len (start, stop, step) ->
  stop < start + k * step <= start.
Proof.
  unfold range_len. intros Hn. destruct (Z.ltb_spec 0 step); [lia|].
  destruct (Z.ltb_spec step 0); [|lia].
  destruct (Z.ltb_spec stop start); [|lia]. intros Hk.
  assert (Hp : 0 < - step) by lia.
  pose proof (Z.mul_div_le (start - stop - 1) (- step) Hp). nia.
Qed.

Lemma range_len_zero_step (start stop : Z) : range_len (start, stop, 0) = 0.
Proof. reflexivity. Qed.

(** Every index of a traversal lies between its ends. *)
Lemma py_range_between (start stop step i : Z) :
  In i (py_range (start, stop, step)) ->
  (0 < step /\ start <= i < stop) \/ (step < 0 /\ stop < i <= start).
Proof.
  intros H. apply py_range_elem in H. destruct H as (k & Hk & ->).
  destruct (Z.lt_trichotomy step 0) as [Hn|[->|Hp]].
  - right. split; [exact Hn|]. apply range_len_down; assumption.
  - rewrite range_len_zero_step in Hk. lia.
  - left. split; [exact Hp|]. apply range_len_up; assumption.
Qed.

(** X5: every index visited by a validated range is a valid index of the
    axis. *)
Theorem validate_range_visits_axis (arg : range_arg) (siz : Z) (t : triple) (i : Z) :
  validate_range arg siz = Ok t -> In i (py_range t) -> 0 <= i < siz.
Proof.
  destruct t as [[start stop] step]. intros V H.
  destruct (validate_range_bounds _ _ _ _ _ V) as (Hs & He & _).
  apply py_range_between in H. lia.
Qed.

Lemma validate_range_visits_axis_witness : 0 <= 2 < 5.
Proof.
  apply (validate_range_visits_axis (ArgTuple [Some (-4); Some (-1); Some 1]) 5
           (1, 4, 1) 2).
  - reflexivity.
  - simpl. tauto.
Defined.

(** X6: the reversed range visits as many indices as the normalized one,
    all of them valid indices of the axis, although its stop may be -1. *)
Theorem reverse_range_visits_axis (arg : range_arg) (siz : Z) (t : triple) :
  validate_range arg siz = Ok t ->
  exists r, reverse_range arg siz = Ok r /\
            length (py_range r) = length (py_range t) /\
            forall i, In i (py_range r) -> 0 <= i < siz.
Proof.
  destruct t as [[start stop] step]. intros V.
  exists (mirror siz start, mirror siz stop, - step).
  split; [unfold reverse_range; rewrite V; reflexivity|].
  rewrite py_range_mirror. split; [apply length_map|].
  intros i H. apply in_map_iff in H. destruct H as (j & <- & Hj).
  destruct (validate_range_bounds _ _ _ _ _ V) as (Hs & He & _).
  apply py_range_between in Hj. unfold mirror. lia.
Qed.

Lemma reverse_range_visits_axis_witness :
  exists r, reverse_range ArgNone 5 = Ok r /\
            length (py_range r) = length (py_range (0, 5, 1)) /\
            forall i, In i (py_range r) -> 0 <= i < 5.
Proof.
  apply (reverse_range_visits_axis ArgNone 5 (0, 5, 1)). reflexivity.
Defined.

(** X7: [reverse_range] returns a start on the axis, a stop between -1 and
    [siz - 1] and a step that is not 0; mirroring the result about
    [siz - 1] and negating the step gives back the normalized range. *)
Theorem reverse_range_bounds (arg : range_arg) (siz start stop step : Z) :
  reverse_range arg siz = Ok (start, stop, step) ->
  0 <= start < siz /\ -1 <= stop < siz /\ step <> 0 /\
  validate_range arg siz = Ok (mirror siz start, mirror siz stop, - step).
Proof.
  unfold reverse_range. destruct (validate_range arg siz) as [[[s e] st]|x] eqn:V;
    simpl; [|discriminate].
  intros R. inversion R; subst.
  destruct (validate_range_bounds _ _ _ _ _ V) as (Hs & He & Hst).
  repeat split; try lia.
  unfold mirror. do 2 f_equal; [f_equal|]; lia.
Qed.

Lemma reverse_range_bounds_witness :
  0 <= 4 < 5 /\ -1 <= -1 < 5 /\ -1 <> 0 /\
  validate_range ArgNone 5 = Ok (mirror 5 4, mirror 5 (-1), - -1).
Proof.
  apply (reverse_range_bounds ArgNone 5 4 (-1) (-1)). reflexivity.
Defined.

Lemma countdown_rev (n : nat) :
  map (fun i => Z.of_nat n - 1 - Z.of_nat i) (seq 0 n) = rev (map Z.of_nat (seq 0 n)).
Proof.
  induction n as [|n IH]; [reflexivity|].
  assert (R : rev (map Z.of_nat (seq 0 (S n))) = Z.of_nat n :: rev (map Z.of_nat (seq 0 n))).
  { rewrite seq_S, map_app, rev_app_distr. reflexivity. }
  rewrite R, <- IH, <- cons_seq, map_cons. f_equal; [lia|].
  rewrite <- seq_shift, map_map. apply map_ext. intros i. lia.
Qed.

Lemma range_len_full (siz : Z) : 0 < siz -> range_len (0, siz, 1) = siz.
Proof.
  intros H. unfold range_len. simpl.
  destruct (Z.ltb_spec 0 siz); [|lia]. rewrite Z.div_1_r. lia.
Qed.

(** X8: for the default argument on an axis of at least two elements,
    the reversed range visits the whole axis backwards: the indices of the
    normalized range in the reverse order. *)
Theorem reverse_range_none_backwards (siz : Z) :
  2 <= siz ->
  exists r, reverse_range ArgNone siz = Ok r /\
            validate_range ArgNone siz = Ok (0, siz, 1) /\
            py_range r = rev (py_range (0, siz, 1)).
Proof.
  intros H. exists (mirror siz 0, mirror siz siz, - (1)).
  pose proof (validate_range_none siz H) as V.
  split; [unfold reverse_range; rewrite V; reflexivity|].
  split; [exact V|].
  rewrite py_range_mirror. unfold py_range.
  rewrite range_len_full by lia. rewrite map_map.
  transitivity (map (fun i => Z.of_nat (Z.to_nat siz) - 1 - Z.of_nat i) (seq 0 (Z.to_nat siz))).
  - apply map_ext. intros i. unfold mirror. lia.
  - rewrite countdown_rev. f_equal. apply map_ext. intros i. lia.
Qed.

Lemma reverse_range_none_backwards_witness :
  exists r, reverse_range ArgNone 5 = Ok r /\
            validate_range ArgNone 5 = Ok (0, 5, 1) /\
            py_range r = rev (py_range (0, 5, 1)).
Proof.
  apply (reverse_range_none_backwards 5). lia.
Defined.

(** X9: a validated range visits no index exactly when its normalized
    start equals its stop, or the wrap-around of a negative index left the
    step pointing against the order of the two. *)
Theorem validate_range_empty (arg : range_arg) (siz start stop step : Z) :
  validate_range arg siz = Ok (start, stop, step) ->
  py_range (start, stop, step) = [] <->
  start = stop \/ ~ direction_ok (start, stop, step).
Proof.
  intros V. destruct (validate_range_bounds _ _ _ _ _ V) as (_ & _ & Hst).
  assert (L : py_range (start, stop, step) = [] <-> range_len (start, stop, step) <= 0).
  { unfold py_range. split.
    - intros H. apply (f_equal (@length Z)) in H.
      rewrite length_map, length_seq in H. cbn [length] in H. lia.
    - intros H. replace (Z.to_nat (range_len (start, stop, step))) with 0%nat by lia.
      reflexivity. }
  rewrite L. unfold range_len, direction_ok.
  destruct (Z.ltb_spec 0 step) as [Hp|Hp].
  - destruct (Z.ltb_spec start stop) as [Hlt|Hge].
    + pose proof (Z.div_pos (stop - start - 1) step). lia.
    + lia.
  - destruct (Z.ltb_spec step 0) as [Hn|Hn]; [|lia].
    destruct (Z.ltb_spec stop start) as [Hlt|Hge].
    + pose proof (Z.div_pos (start - stop - 1) (- step)). lia.
    + lia.
Qed.

Lemma validate_range_empty_witness :
  py_range (4, 2, 1) = [] <-> 4 = 2 \/ ~ direction_ok (4, 2, 1).
Proof.
  apply (validate_range_empty (ArgTuple [Some (-1); Some 2; Some 1]) 5 4 2 1).
  reflexivity.
Defined.

(** * Further properties of the time functions *)

(** X10: any precision other than ['s'], ['ms'], ['us'], ['ns'] raises
    [ValueError], whatever the instants. *)
Theorem get_seconds_bad_precision (dt1 dt2 : datetime64) (p : string) :
  ~ In p precisions ->
  get_seconds dt1 dt2 p = Raise (ValueError UnrecognizedPrecision).
Proof.
  intros H. unfold get_seconds, scale_of.
  destruct (String.eqb_spec p "s") as [->|_]; [exfalso; apply H; simpl; tauto|].
  destruct (String.eqb_spec p "ms") as [->|_]; [exfalso; apply H; simpl; tauto|].
  destruct (String.eqb_spec p "us") as [->|_]; [exfalso; apply H; simpl; tauto|].
  destruct (String.eqb_spec p "ns") as [->|_]; [exfalso; apply H; simpl; tauto|].
  reflexivity.
Qed.

Lemma get_seconds_bad_precision_witness :
  get_seconds {| dt_unit := U_s; dt_ticks := 1 |} {| dt_unit := U_s; dt_ticks := 0 |} "min"
  = Raise (ValueError UnrecognizedPrecision).
Proof.
  apply get_seconds_bad_precision.
  simpl. intros [H|[H|[H|[H|[]]]]]; discriminate H.
Defined.

(** X11: for each of the four precisions the call returns a float that is
    not NaN, for all instants: [NaT] is not propagated, it is scaled like
    any other tick count. *)
Theorem get_seconds_not_nan (dt1 dt2 : datetime64) (p : string) :
  In p precisions ->
  exists x, get_seconds dt1 dt2 p = Ok x /\ is_nan x = false.
Proof.
  intros Hp. destruct (precisions_inv p Hp) as (u & sc & Hu & Hs & Hok & _).
  exists (scaled (tick_delta dt1 dt2 u) sc).
  split; [apply get_seconds_unfold; assumption|apply scaled_not_nan, Hok].
Qed.

Lemma get_seconds_not_nan_witness :
  exists x, get_seconds {| dt_unit := U_s; dt_ticks := NaT |}
                        {| dt_unit := U_s; dt_ticks := 0 |} "s" = Ok x /\
            is_nan x = false.
Proof.
  apply get_seconds_not_nan. simpl. tauto.
Defined.

Lemma rstrip_all_space (s : string) : all_space s = true -> rstrip s = EmptyString.
Proof.
  induction s as [|a s IH]; [reflexivity|]. simpl.
  intros H. apply andb_true_iff in H. destruct H as [Ha Hs].
  rewrite (IH Hs), Ha. reflexivity.
Qed.

Lemma rstrip_snoc_space (s : string) (w : ascii) :
  is_space w = true -> rstrip (s ++ String w EmptyString) = rstrip s.
Proof.
  intros Hw. induction s as [|a s IH]; simpl; [rewrite Hw; reflexivity|].
  rewrite IH. reflexivity.
Qed.

Section ParseEdges.

Variable datetime64_of_string : string -> string -> result datetime64.

(** X12: a text that is empty or all whitespace raises [IndexError],
    before the parser is called. *)
Theorem parse_timestring_blank (s p : string) :
  all_space s = true ->
  parse_timestring datetime64_of_string s p = Raise IndexError.
Proof.
  intros H. unfold parse_timestring, strip.
  rewrite (rstrip_all_space s H). reflexivity.
Qed.

(** X13: when the designator is followed by one whitespace character, it
    is that character which is cut off: the parser receives the text
    still ending in [Z]. *)
Theorem parse_timestring_Z_then_space (s p : string) (w : ascii) :
  is_space w = true ->
  parse_timestring datetime64_of_string ((s ++ "Z") ++ String w EmptyString) p
  = datetime64_of_string (s ++ "Z") p.
Proof.
  intros Hw. unfold parse_timestring, strip.
  rewrite (rstrip_snoc_space _ w Hw).
  rewrite (rstrip_id (s ++ "Z") "Z" (last_char_snoc s "Z") eq_refl).
  rewrite (lstrip_last (s ++ "Z") "Z" (last_char_snoc s "Z") eq_refl).
  cbn [bind]. rewrite Ascii.eqb_refl, but_last_snoc. reflexivity.
Qed.

End ParseEdges.

Lemma parse_timestring_blank_witness :
  parse_timestring epoch_of_string "  " "us" = Raise IndexError.
Proof.
  apply parse_timestring_blank. reflexivity.
Defined.

Lemma parse_timestring_Z_then_space_witness :
  parse_timestring epoch_of_string "1970-01-01T00:00:00Z " "us"
  = epoch_of_string "1970-01-01T00:00:00Z" "us".
Proof.
  apply (parse_timestring_Z_then_space epoch_of_string "1970-01-01T00:00:00" "us" " ").
  reflexivity.
Defined.

(** * Further properties of the namespace mapping *)

Lemma py_dict_is_Some (events : list (string * string)) (k : string) :
  is_Some (py_dict events !! k) <-> In k (map fst events).
Proof.
  induction events as [|[k' v'] events IH] using rev_ind.
  - unfold py_dict. simpl. rewrite lookup_empty. split; [intros [x Hx]; discriminate|tauto].
  - rewrite py_dict_snoc, map_app, in_app_iff, lookup_insert_is_Some, IH. simpl.
    destruct (decide (k' = k)); tauto.
Qed.

(** X14: the keys of the returned mapping are exactly the declared
    prefixes, and in addition ["default"] when the empty prefix is among
    them. *)
Theorem namespace_dict_keys (events : list (string * string)) (m : gmap string string)
    (k : string) :
  namespace_dict events = Some m ->
  is_Some (m !! k) <->
  In k (map fst events) \/ (k = "default"%string /\ In ""%string (map fst events)).
Proof.
  unfold namespace_dict. destruct (size (py_dict events) =? 0)%nat; [discriminate|].
  destruct (py_dict events !! ""%string) as [uri|] eqn:D; intros N; inversion N; subst.
  - assert (H0 : In ""%string (map fst events)).
    { apply py_dict_is_Some. rewrite D. eexists. reflexivity. }
    rewrite lookup_insert_is_Some, py_dict_is_Some.
    destruct (decide ("default"%string = k)) as [<-|Hne]; [tauto|].
    split; [tauto|]. intros [H|[H _]]; [tauto|congruence].
  - assert (H0 : ~ In ""%string (map fst events)).
    { intros H. apply py_dict_is_Some in H. rewrite D in H. destruct H as [x Hx]. discriminate. }
    rewrite py_dict_is_Some. tauto.
Qed.

Lemma namespace_dict_keys_witness :
  exists m, namespace_dict [("gml", "urn:g"); ("", "urn:a")]%string = Some m /\
            is_Some (m !! "default"%string).
Proof.
  destruct (namespace_dict [("gml", "urn:g"); ("", "urn:a")]%string) as [m|] eqn:E.
  - exists m. split; [reflexivity|].
    apply (namespace_dict_keys [("gml", "urn:g"); ("", "urn:a")]%string m "default"%string E).
    right. split; [reflexivity|]. simpl. tauto.
  - vm_compute in E. discriminate E.
Defined.

(** * Further properties of the commercial id *)


Lemma length_smap (f : ascii -> ascii) (s : string) :
  String.length (smap f s) = String.length s.
Proof. induction s as [|a s IH]; simpl; [reflexivity|]. rewrite IH. reflexivity. Qed.


Lemma substring_smap (f : ascii -> ascii) (n m : nat) (s : string) :
  substring n m (smap f s) = smap f (substring n m s).
Proof.
  revert n m. induction s as [|a s IH]; intros n m; simpl.
  - destruct n, m; reflexivity.
  - destruct n as [|n]; [destruct m as [|m]; simpl; [reflexivity|rewrite IH; reflexivity]|].
    apply IH.
Qed.

Lemma last_two_smap (f : ascii -> ascii) (s : string) :
  last_two (smap f s) = smap f (last_two s).
Proof. unfold last_two. rewrite length_smap. apply substring_smap. Qed.


Lemma upper_lower_char (a : ascii) : upper_char (lower_char a) = upper_char a.
Proof. destruct a as [[] [] [] [] [] [] [] []]; reflexivity. Qed.

Lemma lower_lower_char (a : ascii) : lower_char (lower_char a) = lower_char a.
Proof. destruct a as [[] [] [] [] [] [] [] []]; reflexivity. Qed.

Lemma upper_lower (s : string) : upper (lower s) = upper s.
Proof.
  unfold upper, lower. induction s as [|a s IH]; simpl; [reflexivity|].
  rewrite upper_lower_char, IH. reflexivity.
Qed.

(** X15: collector names that differ only in the case of their letters
    give the same result. *)
Theorem get_commercial_id_case (c1 c2 cdate_str : string) (cdate_mins : float)
    (product_number : Z) :
  lower c1 = lower c2 ->
  get_commercial_id c1 cdate_str cdate_mins product_number
  = get_commercial_id c2 cdate_str cdate_mins product_number.
Proof.
  intros H. unfold get_commercial_id. rewrite H.
  replace (upper (last_two c1)) with (upper (last_two c2)); [reflexivity|].
  rewrite <- (upper_lower (last_two c2)), <- (upper_lower (last_two c1)).
  unfold lower in *. rewrite <- !last_two_smap, H. reflexivity.
Qed.

Lemma get_commercial_id_case_witness :
  get_commercial_id "Iceye-x2" "20210101" (float_of_Z 720) 5
  = get_commercial_id "ICEYE-X2" "20210101" (float_of_Z 720) 5.
Proof.
  apply get_commercial_id_case. reflexivity.
Defined.

(** X16: for an ICEYE collector, minutes that are infinite raise
    [OverflowError] and minutes that are NaN raise [ValueError], both from
    [round]. *)
Theorem get_commercial_id_bad_minutes (collector cdate_str : string) (product_number : Z) :
  starts_with_ignoring_case "iceye" collector ->
  (forall s, get_commercial_id collector cdate_str (S754_infinity s) product_number
             = Raise OverflowError) /\
  get_commercial_id collector cdate_str S754_nan product_number
  = Raise (ValueError NanToInteger).
Proof.
  intros H. apply (startswith_lower "iceye" collector eq_refl) in H.
  unfold get_commercial_id. rewrite H. split.
  - intros []; reflexivity.
  - reflexivity.
Qed.

Lemma get_commercial_id_bad_minutes_witness :
  (forall s, get_commercial_id "ICEYE-X2" "20210101" (S754_infinity s) 5
             = Raise OverflowError) /\
  get_commercial_id "ICEYE-X2" "20210101" S754_nan 5 = Raise (ValueError NanToInteger).
Proof.
  apply get_commercial_id_bad_minutes.
  exists "ICEYE"%string, "-X2"%string. split; reflexivity.
Defined.






(** X18: for a whole number of minutes of a day, the pass number computed
    in binary64 is the exact value of [minutes / 96] rounded half to even,
    and lies between 0 and 15. *)
Theorem pass_number_whole_minutes (m : Z) :
  0 <= m <= 1440 ->
  py_round (fdiv (fmul (float_of_Z m) (float_of_Z _orbits_per_day)) (float_of_Z 1440))
  = Ok (round_half_even m 96) /\
  0 <= round_half_even m 96 <= 15.
Proof.
  intros Hm.
  pose (check := fun k : nat =>
    match py_round (fdiv (fmul (float_of_Z (Z.of_nat k)) (float_of_Z _orbits_per_day))
                         (float_of_Z 1440)) with
    | Ok n => (n =? round_half_even (Z.of_nat k) 96) && (0 <=? n) && (n <=? 15)
    | Raise _ => false
    end).
  assert (F : forallb check (seq 0 1441) = true) by (vm_compute; reflexivity).
  rewrite forallb_forall in F. specialize (F (Z.to_nat m)).
  unfold check in F. rewrite Z2Nat.id in F by lia.
  destruct (py_round _) as [n|e]; [|discriminate F; apply in_seq; lia].
  assert (F' : (n =? round_half_even m 96) && (0 <=? n) && (n <=? 15) = true)
    by (apply F, in_seq; lia).
  apply andb_true_iff in F'. destruct F' as [F' H3].
  apply andb_true_iff in F'. destruct F' as [H1 H2].
  apply Z.eqb_eq in H1. subst n. split; [reflexivity|lia].
Qed.

Lemma pass_number_whole_minutes_witness :
  py_round (fdiv (fmul (float_of_Z 720) (float_of_Z _orbits_per_day)) (float_of_Z 1440))
  = Ok (round_half_even 720 96) /\
  0 <= round_half_even 720 96 <= 15.
Proof.
  apply pass_number_whole_minutes. lia.
Defined.

(** X19: for each of the four precisions, the time from an instant to
    itself is [0.0], also for [NaT]. *)
Theorem get_seconds_same (t : datetime64) (p : string) :
  In p precisions -> get_seconds t t p = Ok (S754_zero false).
Proof.
  intros [<-|[<-|[<-|[<-|[]]]]].
  - rewrite (get_seconds_unfold t t "s" U_s (ScaleInt 1) eq_refl eq_refl).
    unfold tick_delta. rewrite int64_sub_self. reflexivity.
  - rewrite (get_seconds_unfold t t "ms" U_ms (ScaleFloat lit_1e_3) eq_refl eq_refl).
    unfold tick_delta. rewrite int64_sub_self. reflexivity.
  - rewrite (get_seconds_unfold t t "us" U_us (ScaleFloat lit_1e_6) eq_refl eq_refl).
    unfold tick_delta. rewrite int64_sub_self. reflexivity.
  - rewrite (get_seconds_unfold t t "ns" U_ns (ScaleFloat lit_1e_9) eq_refl eq_refl).
    unfold tick_delta. rewrite int64_sub_self. reflexivity.
Qed.

Lemma get_seconds_same_witness :
  get_seconds {| dt_unit := U_ms; dt_ticks := NaT |} {| dt_unit := U_ms; dt_ticks := NaT |} "ns"
  = Ok (S754_zero false).
Proof.
  apply get_seconds_same. simpl. tauto.
Defined.

(** X20: writing a negative start as the index it stands for,
    [start + siz], never changes the triple returned: the call with the
    wrapped start returns the same triple, or is rejected by the direction
    test. *)
Theorem validate_range_wrapped_start (start : Z) (stop step : option Z) (siz : Z) (t : triple) :
  start < 0 ->
  validate_range (ArgTuple [Some start; stop; step]) siz = Ok t ->
  validate_range (ArgTuple [Some (start + siz); stop; step]) siz = Ok t \/
  validate_range (ArgTuple [Some (start + siz); stop; step]) siz
  = Raise (ValueError BadDirection).
Proof.
  intros Hneg V. apply validate_range_ok in V. simpl in V.
  destruct V as (Hs & He & Hst & Hd & ->).
  set (e := match stop with Some v => v | None => siz end) in *.
  set (st := match step with Some v => v | None => 1 end) in *.
  destruct (Z_lt_dec 0 st) as [Hp|Hp].
  - destruct (Z_lt_dec e (start + siz)) as [Hgt|Hle].
    + right. unfold validate_range. simpl. fold e st. cases_Z; try lia; reflexivity.
    + left. apply validate_range_ok. simpl. fold e st.
      unfold wrong_direction, wrap_index in *. cases_Z; repeat split; try lia.
  - destruct (Z_lt_dec (start + siz) e) as [Hgt|Hle].
    + right. unfold validate_range. simpl. fold e st. cases_Z; try lia; reflexivity.
    + left. apply validate_range_ok. simpl. fold e st.
      unfold wrong_direction, wrap_index in *. cases_Z; repeat split; try lia.
Qed.

Lemma validate_range_wrapped_start_witness :
  validate_range (ArgTuple [Some (-1 + 5); Some 2; Some 1]) 5 = Ok (4, 2, 1) \/
  validate_range (ArgTuple [Some (-1 + 5); Some 2; Some 1]) 5
  = Raise (ValueError BadDirection).
Proof.
  apply (validate_range_wrapped_start (-1) (Some 2) (Some 1) 5 (4, 2, 1)).
  - lia.
  - reflexivity.
Defined.
